(** * portable/system.h: standard system includes and portability adjustments

    The header is a sequence of preprocessing directives.  It is embedded
    here as a state transformer over the preprocessor's macro table, built
    from one combinator per directive, so that the definition of
    [system_h] below can be read next to the header line by line.

    The files named by [#include] (config.h, the C library headers and the
    two portable/ headers) are not part of this file.  The embedding records
    each inclusion in the order it happens, and takes what those files
    define as a parameter: the feature flags of config.h and the macros of
    the C library are part of the macro table the header is run in. *)

From Stdlib Require Import ZArith.
From stdpp Require Import base decidable option list strings gmap.

(** ** Preprocessing tokens and macro definitions *)

(** An integer constant is kept by its value, not by its spelling: [1],
    [0x1] and [1u] are one and the same token here.  Where two definitions
    of a macro are compared, constants of one value therefore compare
    equal, although a preprocessor compares their spellings. *)
Inductive token : Type :=
| TId (name : string)       (* identifier *)
| TNum (n : Z)              (* integer constant *)
| TPunct (p : string).      (* punctuator *)

#[global] Instance token_eq_dec : EqDecision token.
Proof. solve_decision. Defined.

(** A macro is object-like ([macro_params = None]) or function-like, with a
    replacement list. *)
Record macro : Type := Macro {
  macro_params : option (list string);
  macro_body : list token }.

#[global] Instance macro_eq_dec : EqDecision macro.
Proof. solve_decision. Defined.

Definition object_like (body : list token) : macro := Macro None body.
Definition function_like (params : list string) (body : list token) : macro :=
  Macro (Some params) body.

(** Replacement of the parameters of a function-like macro by the tokens of
    the arguments of an invocation. *)
Fixpoint lookup_param (params : list string) (args : list (list token))
    (x : string) : option (list token) :=
  match params, args with
  | p :: params', a :: args' =>
      if decide (p = x) then Some a else lookup_param params' args' x
  | _, _ => None
  end.

Definition substitute (params : list string) (args : list (list token))
    (t : token) : list token :=
  match t with
  | TId x => match lookup_param params args x with
             | Some a => a
             | None => [t]
             end
  | _ => [t]
  end.

Definition expand_invocation (m : macro) (args : list (list token))
    : option (list token) :=
  match macro_params m with
  | Some params =>
      if decide (length params = length args)
      then Some (concat (map (substitute params args) (macro_body m)))
      else None
  | None => None
  end.

(** ** Preprocessor state *)

(** What the header itself contributes to the translation unit, in order.
    A [typedef] is passed through to the compiler; whether the type it names
    exists already is not the preprocessor's business and is not tracked. *)
Inductive event : Type :=
| EvInclude (header : string)
| EvDefine (name : string) (m : macro)
| EvTypedef (type name : string).

#[global] Instance event_eq_dec : EqDecision event.
Proof. solve_decision. Defined.

(** A [#define] of a name that is already a macro with a different
    definition is a redefinition conflict; defining it again with the same
    definition is allowed. *)
Inductive diagnostic : Type :=
| Redefined (name : string).

#[global] Instance diagnostic_eq_dec : EqDecision diagnostic.
Proof. solve_decision. Defined.

(** Fatal errors of a controlling [#if] expression. *)
Inductive pp_error : Type :=
| IfWithoutExpression (name : string)
| IfNotIntegerConstant (name : string).

Inductive result (A : Type) : Type :=
| Ok (a : A)
| Err (e : pp_error).
Arguments Ok {A} a.
Arguments Err {A} e.

Record cpp_state : Type := CppState {
  macros : gmap string macro;
  emitted : list event;
  diagnostics : list diagnostic }.

(** The state before the header: the configuration [m], nothing emitted. *)
Definition start (m : gmap string macro) : cpp_state := CppState m [] [].

(** A directive, or a group of them, transforms the state or fails. *)
Definition directive : Type := cpp_state -> result cpp_state.

(** One directive after another; an error stops the run.  A preprocessor
    reads on after an ill-formed [#if] to report what else it finds, but
    the translation unit is rejected: what the rest of the header would
    have done is then of no account, and the run ends with the error. *)
Definition seq (d1 d2 : directive) : directive :=
  fun s => match d1 s with
           | Ok s' => d2 s'
           | Err e => Err e
           end.

Declare Scope cpp_scope.
Delimit Scope cpp_scope with cpp.
Bind Scope cpp_scope with directive.
Notation "d1 ;; d2" := (seq d1 d2)
  (at level 100, d2 at level 200, right associativity) : cpp_scope.

(** ** One combinator per directive *)

(** [name] is a macro, object-like or function-like. *)
Definition is_defined (name : string) (m : gmap string macro) : bool :=
  bool_decide (is_Some (m !! name)).

(** Record [e]; the macro table stays as it is. *)
Definition emit (e : event) (s : cpp_state) : cpp_state :=
  CppState (macros s) (emitted s ++ [e]) (diagnostics s).

(** [#include <header>]: the inclusion is recorded.  The file is taken to
    be there; a platform on which it may be missing is the matter of
    [system_h_on] below. *)
Definition pp_include (header : string) : directive :=
  fun s => Ok (emit (EvInclude header) s).

(** The diagnostic, if any, of defining [name] as [d] in the macro table
    [m]. *)
Definition redefinition (name : string) (d : macro) (m : gmap string macro)
    : list diagnostic :=
  match m !! name with
  | Some d' => if decide (d' = d) then [] else [Redefined name]
  | None => []
  end.

(** [#define name ...]: the new definition replaces the old one. *)
Definition define (name : string) (d : macro) (s : cpp_state) : cpp_state :=
  CppState (<[name := d]> (macros s))
           (emitted s ++ [EvDefine name d])
           (diagnostics s ++ redefinition name d (macros s)).

Definition pp_define (name : string) (d : macro) : directive :=
  fun s => Ok (define name d s).

(** [typedef type name;] is not a directive: it is passed through. *)
Definition c_typedef (type name : string) : directive :=
  fun s => Ok (emit (EvTypedef type name) s).

(** [#ifdef name ... #endif] and [#ifndef name ... #endif] *)
Definition pp_ifdef (name : string) (body : directive) : directive :=
  fun s => if is_defined name (macros s) then body s else Ok s.

Definition pp_ifndef (name : string) (body : directive) : directive :=
  fun s => if is_defined name (macros s) then Ok s else body s.

(** [#ifdef name ... #else ... #endif] *)
Definition pp_ifdef_else (name : string) (body1 body2 : directive) : directive :=
  fun s => if is_defined name (macros s) then body1 s else body2 s.

(** A controlling expression is computed in the widest integer type, of 64
    bits on the platforms the header is built for: an integer constant that
    does not fit is cut to its low 64 bits, so that 2^64 counts as 0. *)
Definition if_constant (n : Z) : Z := (n mod 2 ^ 64)%Z.

(** The value of the controlling expression of [#if name].  An identifier
    that is not a macro, or that names a function-like macro and is not
    followed by an argument list, evaluates to 0.  An object-like macro is
    replaced by its replacement list: an empty list leaves [#if] without an
    expression, which is an error.  The embedding evaluates a replacement
    list that is a single integer constant, the form config.h gives a
    feature flag.  It does not evaluate any other replacement list (another
    identifier, a parenthesised or compound expression) and answers
    [IfNotIntegerConstant] for it, also where a preprocessor would compute a
    value: nothing is proved below about a flag defined in such a way. *)
Definition if_value (name : string) (m : gmap string macro) : result Z :=
  match m !! name with
  | None => Ok 0%Z
  | Some (Macro (Some _) _) => Ok 0%Z
  | Some (Macro None []) => Err (IfWithoutExpression name)
  | Some (Macro None [TNum n]) => Ok (if_constant n)
  | Some (Macro None _) => Err (IfNotIntegerConstant name)
  end.

(** [#if name ... #endif] *)
Definition pp_if (name : string) (body : directive) : directive :=
  fun s => match if_value name (macros s) with
           | Ok n => if (n =? 0)%Z then Ok s else body s
           | Err e => Err e
           end.

(** ** The header *)

Open Scope cpp_scope.

(** Lines 39-71: the standard headers. *)
Definition standard_includes : directive :=
  pp_include "config.h" ;;
  pp_include "portable/macros.h" ;;
  pp_if "HAVE_INTTYPES_H" (pp_include "inttypes.h") ;;
  pp_include "stdarg.h" ;;
  pp_include "stddef.h" ;;
  pp_if "HAVE_STDINT_H" (pp_include "stdint.h") ;;
  pp_include "stdio.h" ;;
  pp_include "stdlib.h" ;;
  pp_include "string.h" ;;
  pp_if "HAVE_STRINGS_H" (pp_include "strings.h") ;;
  pp_include "sys/types.h" ;;
  pp_if "HAVE_UNISTD_H" (pp_include "unistd.h") ;;
  pp_if "HAVE_SYS_BITYPES_H" (pp_include "sys/bitypes.h") ;;
  pp_include "portable/stdbool.h".

(** Lines 73-76: Windows provides snprintf under a different name. *)
Definition snprintf_alias : directive :=
  pp_ifdef "_WIN32" (pp_define "snprintf" (object_like [TId "_snprintf"])).

(** Lines 78-81: Windows does not define ssize_t. *)
Definition ssize_t_fallback : directive :=
  pp_ifndef "HAVE_SSIZE_T" (c_typedef "ptrdiff_t" "ssize_t").

(** Lines 83-91: the standard stream descriptors. *)
Definition fileno_fallback : directive :=
  pp_ifndef "STDIN_FILENO" (
    pp_define "STDIN_FILENO" (object_like [TNum 0]) ;;
    pp_define "STDOUT_FILENO" (object_like [TNum 1]) ;;
    pp_define "STDERR_FILENO" (object_like [TNum 2])).

(** Lines 93-103: va_copy. *)
Definition va_copy_alternate : macro :=
  function_like ["d"; "s"]
    [TId "__va_copy"; TPunct "(";
       TPunct "("; TId "d"; TPunct ")"; TPunct ",";
       TPunct "("; TId "s"; TPunct ")"; TPunct ")"].

Definition va_copy_memcpy : macro :=
  function_like ["d"; "s"]
    [TId "memcpy"; TPunct "(";
       TPunct "&"; TPunct "("; TId "d"; TPunct ")"; TPunct ",";
       TPunct "&"; TPunct "("; TId "s"; TPunct ")"; TPunct ",";
       TId "sizeof"; TPunct "("; TId "va_list"; TPunct ")"; TPunct ")"].

Definition va_copy_fallback : directive :=
  pp_ifndef "va_copy" (
    pp_ifdef_else "__va_copy"
      (pp_define "va_copy" va_copy_alternate)
      (pp_define "va_copy" va_copy_memcpy)).

(** Lines 36-105: the whole header, under its include guard. *)
Definition system_h : directive :=
  pp_ifndef "PORTABLE_SYSTEM_H" (
    pp_define "PORTABLE_SYSTEM_H" (object_like [TNum 1]) ;;
    standard_includes ;;
    snprintf_alias ;;
    ssize_t_fallback ;;
    fileno_fallback ;;
    va_copy_fallback).

(** ** Configurations *)

(** The feature flags the header tests with [#if]. *)
Definition feature_flags : list string :=
  ["HAVE_INTTYPES_H"; "HAVE_STDINT_H"; "HAVE_STRINGS_H"; "HAVE_UNISTD_H";
   "HAVE_SYS_BITYPES_H"].

(** Each conditionally included header with the flag that guards it. *)
Definition conditional_headers : list (string * string) :=
  [("HAVE_INTTYPES_H", "inttypes.h"); ("HAVE_STDINT_H", "stdint.h");
   ("HAVE_STRINGS_H", "strings.h"); ("HAVE_UNISTD_H", "unistd.h");
   ("HAVE_SYS_BITYPES_H", "sys/bitypes.h")].

(** The flag is assigned: it is left undefined or defined as an integer,
    the two things config.h does with a flag. *)
Definition flag_assigned (name : string) (m : gmap string macro) : bool :=
  match m !! name with
  | None => true
  | Some (Macro None [TNum _]) => true
  | Some _ => false
  end.

(** The flag is set: it is defined as an integer whose value in [#if] is
    not 0. *)
Definition flag_set (name : string) (m : gmap string macro) : bool :=
  match m !! name with
  | Some (Macro None [TNum n]) => negb (if_constant n =? 0)%Z
  | _ => false
  end.

(** The configuration assigns every feature flag. *)
Definition flags_assigned (m : gmap string macro) : Prop :=
  forallb (fun f => flag_assigned f m) feature_flags = true.

(** The header has not been included yet. *)
Definition first_inclusion (m : gmap string macro) : Prop :=
  is_defined "PORTABLE_SYSTEM_H" m = false.

(** ** The result of the header in closed form

    The definitions of this part are not translated from the header.  They
    state what one pass over it leaves behind as plain functions of the
    configuration, with every test made on the configuration the header
    started from; [system_h_first_pass], [first_pass_emitted],
    [first_pass_diagnostics] and [first_pass_macros] below prove them
    against [system_h]. *)

Definition when {A : Type} (b : bool) (l : list A) : list A :=
  if b then l else [].

(** The inclusions of lines 39-71. *)
Definition included_headers (m : gmap string macro) : list event :=
  [EvInclude "config.h"; EvInclude "portable/macros.h"] ++
  when (flag_set "HAVE_INTTYPES_H" m) [EvInclude "inttypes.h"] ++
  [EvInclude "stdarg.h"; EvInclude "stddef.h"] ++
  when (flag_set "HAVE_STDINT_H" m) [EvInclude "stdint.h"] ++
  [EvInclude "stdio.h"; EvInclude "stdlib.h"; EvInclude "string.h"] ++
  when (flag_set "HAVE_STRINGS_H" m) [EvInclude "strings.h"] ++
  [EvInclude "sys/types.h"] ++
  when (flag_set "HAVE_UNISTD_H" m) [EvInclude "unistd.h"] ++
  when (flag_set "HAVE_SYS_BITYPES_H" m) [EvInclude "sys/bitypes.h"] ++
  [EvInclude "portable/stdbool.h"].

(** The state after one pass over the body of the header. *)
Definition first_pass (s : cpp_state) : cpp_state :=
  let m := macros s in
  let s0 := define "PORTABLE_SYSTEM_H" (object_like [TNum 1]) s in
  let s1 := CppState (macros s0) (emitted s0 ++ included_headers m)
                     (diagnostics s0) in
  let s2 := if is_defined "_WIN32" m
            then define "snprintf" (object_like [TId "_snprintf"]) s1
            else s1 in
  let s3 := if is_defined "HAVE_SSIZE_T" m
            then s2
            else emit (EvTypedef "ptrdiff_t" "ssize_t") s2 in
  let s4 := if is_defined "STDIN_FILENO" m
            then s3
            else define "STDERR_FILENO" (object_like [TNum 2])
                   (define "STDOUT_FILENO" (object_like [TNum 1])
                      (define "STDIN_FILENO" (object_like [TNum 0]) s3)) in
  if is_defined "va_copy" m
  then s4
  else define "va_copy"
         (if is_defined "__va_copy" m then va_copy_alternate
          else va_copy_memcpy) s4.

Definition stream_descriptors : list (string * macro) :=
  [("STDIN_FILENO", object_like [TNum 0]);
   ("STDOUT_FILENO", object_like [TNum 1]);
   ("STDERR_FILENO", object_like [TNum 2])].

(** What a first pass emits. *)
Definition header_events (m : gmap string macro) : list event :=
  [EvDefine "PORTABLE_SYSTEM_H" (object_like [TNum 1])] ++
  included_headers m ++
  when (is_defined "_WIN32" m)
    [EvDefine "snprintf" (object_like [TId "_snprintf"])] ++
  when (negb (is_defined "HAVE_SSIZE_T" m))
    [EvTypedef "ptrdiff_t" "ssize_t"] ++
  when (negb (is_defined "STDIN_FILENO" m))
    (map (fun d => EvDefine d.1 d.2) stream_descriptors) ++
  when (negb (is_defined "va_copy" m))
    [EvDefine "va_copy" (if is_defined "__va_copy" m then va_copy_alternate
                         else va_copy_memcpy)].

(** The redefinition conflicts of a first pass. *)
Definition header_diagnostics (m : gmap string macro) : list diagnostic :=
  when (is_defined "_WIN32" m)
    (redefinition "snprintf" (object_like [TId "_snprintf"]) m) ++
  when (negb (is_defined "STDIN_FILENO" m))
    (redefinition "STDOUT_FILENO" (object_like [TNum 1]) m ++
     redefinition "STDERR_FILENO" (object_like [TNum 2]) m).

(** The macros a first pass defines; every other name is left as it was. *)
Definition header_defines (m : gmap string macro) (name : string)
    : option macro :=
  if decide (name = "PORTABLE_SYSTEM_H") then Some (object_like [TNum 1])
  else if decide (name = "snprintf") then
    if is_defined "_WIN32" m then Some (object_like [TId "_snprintf"]) else None
  else if decide (name = "STDIN_FILENO") then
    if is_defined "STDIN_FILENO" m then None else Some (object_like [TNum 0])
  else if decide (name = "STDOUT_FILENO") then
    if is_defined "STDIN_FILENO" m then None else Some (object_like [TNum 1])
  else if decide (name = "STDERR_FILENO") then
    if is_defined "STDIN_FILENO" m then None else Some (object_like [TNum 2])
  else if decide (name = "va_copy") then
    if is_defined "va_copy" m then None
    else Some (if is_defined "__va_copy" m then va_copy_alternate
               else va_copy_memcpy)
  else None.

(** ** Reading the result *)

(** [e] is a [#define] of one of [names]. *)
Definition defines_one_of (names : list string) (e : event) : bool :=
  match e with
  | EvDefine n _ => bool_decide (n ∈ names)
  | _ => false
  end.

Definition is_typedef (e : event) : bool :=
  match e with
  | EvTypedef _ _ => true
  | _ => false
  end.

(** The definitions the header made of the given names, in order. *)
Definition definitions_of (names : list string) (r : cpp_state) : list event :=
  List.filter (defines_one_of names) (emitted r).

(** The type definitions the header made. *)
Definition typedefs (r : cpp_state) : list event :=
  List.filter is_typedef (emitted r).

Definition descriptor_names : list string :=
  ["STDIN_FILENO"; "STDOUT_FILENO"; "STDERR_FILENO"].

(** ** The symbols the header promises *)






(** ** Sample configurations *)

(** The way config.h sets a flag: [#define FLAG 1]. *)
Definition flag_on : macro := object_like [TNum 1].

(** A POSIX system as Autoconf describes it; its headers provide the stream
    descriptors and va_copy. *)
Definition posix_config : gmap string macro :=
  list_to_map
    [("HAVE_INTTYPES_H", flag_on); ("HAVE_STDINT_H", flag_on);
     ("HAVE_STRINGS_H", flag_on); ("HAVE_UNISTD_H", flag_on);
     ("HAVE_SSIZE_T", flag_on);
     ("STDIN_FILENO", object_like [TNum 0]);
     ("STDOUT_FILENO", object_like [TNum 1]);
     ("STDERR_FILENO", object_like [TNum 2]);
     ("va_copy", function_like ["d"; "s"]
                   [TId "__builtin_va_copy"; TPunct "("; TId "d"; TPunct ",";
                    TId "s"; TPunct ")"])].

(** A Windows system: no feature flag is set. *)
Definition windows_config : gmap string macro :=
  list_to_map [("_WIN32", object_like [TNum 1])].

(** MinGW: Windows with some of the POSIX headers. *)
Definition mingw_config : gmap string macro :=
  list_to_map
    [("_WIN32", object_like [TNum 1]);
     ("HAVE_INTTYPES_H", flag_on); ("HAVE_STDINT_H", flag_on);
     ("HAVE_UNISTD_H", flag_on); ("HAVE_SSIZE_T", flag_on)].

(** A configuration that defines STDIN_FILENO and nothing else. *)
Definition stdin_only_config : gmap string macro :=
  {["STDIN_FILENO" := object_like [TNum 0]]}.


(** HAVE_INTTYPES_H defined with nothing after its name. *)
Definition empty_flag_config : gmap string macro :=
  {["HAVE_INTTYPES_H" := object_like []]}.

(** Windows, with snprintf already replaced by a macro. *)
Definition replaced_snprintf_config : gmap string macro :=
  <["snprintf" := object_like [TId "rpl_snprintf"]]> windows_config.

(** ** Further readings of the run *)

(** The error of the first [#if], in the order of the header, whose flag
    has no value; [None] when every flag has one. *)
Fixpoint first_error (flags : list string) (m : gmap string macro)
    : option pp_error :=
  match flags with
  | [] => None
  | f :: flags' =>
      match if_value f m with
      | Err e => Some e
      | Ok _ => first_error flags' m
      end
  end.

Definition header_of (e : event) : option string :=
  match e with
  | EvInclude h => Some h
  | _ => None
  end.

(** The files the header included, in order. *)
Definition inclusions (r : cpp_state) : list string :=
  omap header_of (emitted r).

(** Every file the header names, in the order of its lines (40-71). *)
Definition all_headers : list string :=
  ["config.h"; "portable/macros.h"; "inttypes.h"; "stdarg.h"; "stddef.h";
   "stdint.h"; "stdio.h"; "stdlib.h"; "string.h"; "strings.h"; "sys/types.h";
   "unistd.h"; "sys/bitypes.h"; "portable/stdbool.h"].

(** The files included outside every [#if]. *)
Definition unconditional_headers : list string :=
  ["config.h"; "portable/macros.h"; "stdarg.h"; "stddef.h"; "stdio.h";
   "stdlib.h"; "string.h"; "sys/types.h"; "portable/stdbool.h"].

(** The headers the leading comment of the file (lines 4-17) says it
    stands for, as the comment names them. *)
Definition documented_headers : list string :=
  ["sys/types.h"; "stdarg.h"; "stdbool.h"; "stddef.h"; "stdio.h";
   "stdlib.h"; "stdint.h"; "string.h"; "strings.h"; "unistd.h"].

(** The names the header has a [#define] for. *)
Definition defined_names : list string :=
  ["PORTABLE_SYSTEM_H"; "snprintf"; "STDIN_FILENO"; "STDOUT_FILENO";
   "STDERR_FILENO"; "va_copy"].




(** The header included [n] times in a row. *)
Fixpoint include_times (n : nat) : directive :=
  match n with
  | 0 => fun s => Ok s
  | S n' => system_h ;; include_times n'
  end.

(** ** The header on a platform

    Which of the files the header names exist is not decided by the header:
    [present] tells it.  An [#include] of a file that is not there is a
    fatal error, as is an ill-formed [#if]: in both cases the translation
    unit is not produced. *)

(** The files read between the states [s] and [r] of one run. *)
Definition files_read (s r : cpp_state) : list string :=
  omap header_of (drop (length (emitted s)) (emitted r)).

Definition system_h_on (present : string -> bool) (s : cpp_state)
    : option cpp_state :=
  match system_h s with
  | Err _ => None
  | Ok r => if forallb present (files_read s r) then Some r else None
  end.

(** A platform that has every file. *)
Definition every_file : string -> bool := fun _ => true.

(** A platform without unistd.h. *)
Definition no_unistd : string -> bool :=
  fun h => negb (String.eqb h "unistd.h").

(** * Proofs *)

(** ** Running directives *)

Lemma seq_run (d1 d2 : directive) (s s' : cpp_state) :
  d1 s = Ok s' -> (d1 ;; d2) s = d2 s'.
Proof. intros H. unfold seq. now rewrite H. Qed.

Lemma pp_include_run (h : string) m ev dg :
  pp_include h (CppState m ev dg) = Ok (CppState m (ev ++ [EvInclude h]) dg).
Proof. reflexivity. Qed.

Lemma pp_define_run (name : string) (d : macro) (s : cpp_state) :
  pp_define name d s = Ok (define name d s).
Proof. reflexivity. Qed.

Lemma if_value_assigned (name : string) (m : gmap string macro) :
  flag_assigned name m = true ->
  exists n, if_value name m = Ok n /\ flag_set name m = negb (n =? 0)%Z.
Proof.
  unfold flag_assigned, if_value, flag_set.
  destruct (m !! name) as [[[ps|] [|[x|n|p] [|t body]]]|];
    try discriminate; intros _; eauto.
Qed.

Lemma pp_if_include_run (name h : string) m ev dg :
  flag_assigned name m = true ->
  pp_if name (pp_include h) (CppState m ev dg) =
  Ok (CppState m (ev ++ when (flag_set name m) [EvInclude h]) dg).
Proof.
  intros (n & Hvalue & Hset)%if_value_assigned.
  unfold pp_if, pp_include, emit. cbn [macros emitted diagnostics].
  rewrite Hvalue, Hset.
  destruct (n =? 0)%Z; cbn [when negb]; [|reflexivity].
  now rewrite app_nil_r.
Qed.

Lemma flags_assigned_each (m : gmap string macro) :
  flags_assigned m ->
  flag_assigned "HAVE_INTTYPES_H" m = true /\
  flag_assigned "HAVE_STDINT_H" m = true /\
  flag_assigned "HAVE_STRINGS_H" m = true /\
  flag_assigned "HAVE_UNISTD_H" m = true /\
  flag_assigned "HAVE_SYS_BITYPES_H" m = true.
Proof.
  unfold flags_assigned, feature_flags. cbn [forallb].
  rewrite !andb_true_iff. tauto.
Qed.

Lemma standard_includes_run (s : cpp_state) :
  flags_assigned (macros s) ->
  standard_includes s =
  Ok (CppState (macros s) (emitted s ++ included_headers (macros s))
               (diagnostics s)).
Proof.
  destruct s as [m ev dg]. cbn [macros emitted diagnostics].
  intros (H1 & H2 & H3 & H4 & H5)%flags_assigned_each.
  unfold standard_includes.
  repeat first
    [ erewrite seq_run by (apply pp_include_run)
    | erewrite seq_run by (apply pp_if_include_run; assumption) ].
  rewrite pp_include_run. unfold included_headers.
  now rewrite <- !app_assoc.
Qed.

(** ** Tests are not disturbed by the definition of another name *)

Lemma is_defined_insert_ne (name name' : string) (d : macro)
    (m : gmap string macro) :
  name' <> name -> is_defined name (<[name' := d]> m) = is_defined name m.
Proof. intros H. unfold is_defined. now rewrite lookup_insert_ne. Qed.

Lemma is_defined_insert_eq (name : string) (d : macro) (m : gmap string macro) :
  is_defined name (<[name := d]> m) = true.
Proof.
  unfold is_defined. rewrite lookup_insert_eq. apply bool_decide_eq_true. eauto.
Qed.

Lemma is_defined_true (name : string) (m : gmap string macro) :
  is_defined name m = true <-> is_Some (m !! name).
Proof. unfold is_defined. apply bool_decide_eq_true. Qed.

Lemma is_defined_false (name : string) (m : gmap string macro) :
  is_defined name m = false <-> m !! name = None.
Proof.
  unfold is_defined. rewrite bool_decide_eq_false, eq_None_not_Some. tauto.
Qed.

Lemma if_value_insert_ne (name name' : string) (d : macro)
    (m : gmap string macro) :
  name' <> name -> if_value name (<[name' := d]> m) = if_value name m.
Proof. intros H. unfold if_value. now rewrite lookup_insert_ne. Qed.

Lemma flag_set_insert_ne (name name' : string) (d : macro)
    (m : gmap string macro) :
  name' <> name -> flag_set name (<[name' := d]> m) = flag_set name m.
Proof. intros H. unfold flag_set. now rewrite lookup_insert_ne. Qed.

Lemma flag_assigned_insert_ne (name name' : string) (d : macro)
    (m : gmap string macro) :
  name' <> name -> flag_assigned name (<[name' := d]> m) = flag_assigned name m.
Proof. intros H. unfold flag_assigned. now rewrite lookup_insert_ne. Qed.

Lemma flags_assigned_guard (d : macro) (m : gmap string macro) :
  flags_assigned m -> flags_assigned (<["PORTABLE_SYSTEM_H" := d]> m).
Proof.
  unfold flags_assigned, feature_flags. cbn [forallb].
  now rewrite !flag_assigned_insert_ne by discriminate.
Qed.

Lemma included_headers_guard (d : macro) (m : gmap string macro) :
  included_headers (<["PORTABLE_SYSTEM_H" := d]> m) = included_headers m.
Proof.
  unfold included_headers.
  now rewrite !flag_set_insert_ne by discriminate.
Qed.

(** ** The header computes its first pass *)

Ltac test_macro name m :=
  rewrite ?(is_defined_insert_ne name) by discriminate;
  destruct (is_defined name m).

Lemma system_h_first_pass (s : cpp_state) :
  first_inclusion (macros s) -> flags_assigned (macros s) ->
  system_h s = Ok (first_pass s).
Proof.
  destruct s as [m ev dg]. unfold first_inclusion. cbn [macros].
  intros Hguard Hflags.
  unfold system_h, pp_ifndef at 1. cbn [macros]. rewrite Hguard.
  erewrite seq_run by (apply pp_define_run).
  unfold define at 1. cbn [macros emitted diagnostics].
  erewrite seq_run
    by (apply standard_includes_run; now apply flags_assigned_guard).
  cbn [macros emitted diagnostics]. rewrite included_headers_guard.
  unfold first_pass, define at 5. cbn [macros emitted diagnostics].
  unfold snprintf_alias, ssize_t_fallback, fileno_fallback, va_copy_fallback.
  unfold seq, pp_ifdef, pp_ifndef, pp_ifdef_else, c_typedef.
  cbn [macros].
  test_macro "_WIN32" m; rewrite ?pp_define_run; cbn [macros define emit];
  test_macro "HAVE_SSIZE_T" m; cbn [macros define emit];
  test_macro "STDIN_FILENO" m; rewrite ?pp_define_run; cbn [macros define emit];
  test_macro "va_copy" m; try reflexivity;
  test_macro "__va_copy" m; reflexivity.
Qed.

(** ** What the first pass emits, diagnoses and defines *)

Lemma first_pass_emitted (s : cpp_state) :
  emitted (first_pass s) = emitted s ++ header_events (macros s).
Proof.
  destruct s as [m ev dg].
  unfold first_pass, header_events, stream_descriptors.
  cbn [macros emitted diagnostics map fst snd].
  destruct (is_defined "_WIN32" m), (is_defined "HAVE_SSIZE_T" m),
    (is_defined "STDIN_FILENO" m), (is_defined "va_copy" m);
    cbn [macros emitted diagnostics define emit when negb];
    rewrite <- ?app_assoc; cbn [app]; rewrite ?app_nil_r; reflexivity.
Qed.

Lemma redefinition_insert_ne (name name' : string) (d d' : macro)
    (m : gmap string macro) :
  name' <> name -> redefinition name d (<[name' := d']> m) = redefinition name d m.
Proof. intros H. unfold redefinition. now rewrite lookup_insert_ne. Qed.

Lemma redefinition_undefined (name : string) (d : macro) (m : gmap string macro) :
  is_defined name m = false -> redefinition name d m = [].
Proof. intros H%is_defined_false. unfold redefinition. now rewrite H. Qed.

Lemma first_pass_diagnostics (s : cpp_state) :
  first_inclusion (macros s) ->
  diagnostics (first_pass s) = diagnostics s ++ header_diagnostics (macros s).
Proof.
  destruct s as [m ev dg]. unfold first_inclusion. cbn [macros]. intros Hguard.
  unfold first_pass, header_diagnostics.
  cbn [macros emitted diagnostics].
  destruct (is_defined "_WIN32" m) eqn:Hwin,
    (is_defined "HAVE_SSIZE_T" m) eqn:Hssize,
    (is_defined "STDIN_FILENO" m) eqn:Hstdin,
    (is_defined "va_copy" m) eqn:Hva;
    cbn [macros emitted diagnostics define emit when negb];
    rewrite ?redefinition_insert_ne by discriminate;
    rewrite ?(redefinition_undefined "PORTABLE_SYSTEM_H") by assumption;
    rewrite ?(redefinition_undefined "STDIN_FILENO") by assumption;
    rewrite ?(redefinition_undefined "va_copy") by assumption;
    rewrite <- ?app_assoc; cbn [app]; rewrite ?app_nil_r; reflexivity.
Qed.

Lemma first_pass_macros (s : cpp_state) (name : string) :
  macros (first_pass s) !! name =
  match header_defines (macros s) name with
  | Some d => Some d
  | None => macros s !! name
  end.
Proof.
  destruct s as [m ev dg]. unfold first_pass, header_defines.
  cbn [macros emitted diagnostics].
  destruct (is_defined "_WIN32" m), (is_defined "HAVE_SSIZE_T" m),
    (is_defined "STDIN_FILENO" m), (is_defined "va_copy" m);
    cbn [macros emitted diagnostics define emit];
    repeat case_decide; subst; try discriminate;
    repeat first [ rewrite lookup_insert_eq
                 | rewrite lookup_insert_ne by (discriminate || congruence) ];
    reflexivity.
Qed.

(** ** Reading the result *)

Lemma included_headers_are_includes (m : gmap string macro) :
  Forall (fun e => exists h, e = EvInclude h) (included_headers m).
Proof.
  unfold included_headers.
  repeat (apply Forall_app; split);
    repeat match goal with
           | |- context [when ?b _] => destruct b; cbn [when]
           end;
    repeat constructor; eauto.
Qed.

Lemma filter_included_headers (f : event -> bool) (m : gmap string macro) :
  (forall h, f (EvInclude h) = false) ->
  List.filter f (included_headers m) = [].
Proof.
  intros Hf. pose proof (included_headers_are_includes m) as H.
  induction H as [|e l [h ->] _ IH]; [reflexivity|].
  cbn [List.filter]. now rewrite Hf.
Qed.

Lemma elem_of_when {A : Type} (b : bool) (l : list A) (x : A) :
  x ∈ when b l <-> b = true /\ x ∈ l.
Proof.
  destruct b; cbn [when]; [tauto|].
  rewrite elem_of_nil. split; [tauto|]. now intros [? _].
Qed.

Lemma included_header_iff (m : gmap string macro) (h : string) :
  EvInclude h ∈ included_headers m <->
  h ∈ ["config.h"; "portable/macros.h"; "stdarg.h"; "stddef.h"; "stdio.h";
       "stdlib.h"; "string.h"; "sys/types.h"; "portable/stdbool.h"] \/
  (h = "inttypes.h" /\ flag_set "HAVE_INTTYPES_H" m = true) \/
  (h = "stdint.h" /\ flag_set "HAVE_STDINT_H" m = true) \/
  (h = "strings.h" /\ flag_set "HAVE_STRINGS_H" m = true) \/
  (h = "unistd.h" /\ flag_set "HAVE_UNISTD_H" m = true) \/
  (h = "sys/bitypes.h" /\ flag_set "HAVE_SYS_BITYPES_H" m = true).
Proof.
  assert (Hinj : forall h', EvInclude h = EvInclude h' <-> h = h')
    by (intros h'; split; congruence).
  unfold included_headers.
  rewrite !elem_of_app, !elem_of_when, !elem_of_cons, !elem_of_nil, !Hinj.
  tauto.
Qed.

(** The result of the header on a configuration that has not seen it. *)
Lemma system_h_start (m : gmap string macro) :
  first_inclusion m -> flags_assigned m ->
  exists r, system_h (start m) = Ok r /\
    emitted r = header_events m /\
    diagnostics r = header_diagnostics m /\
    forall name, macros r !! name =
                 match header_defines m name with
                 | Some d => Some d
                 | None => m !! name
                 end.
Proof.
  intros Hguard Hflags. exists (first_pass (start m)). split.
  - now apply system_h_first_pass.
  - rewrite first_pass_emitted, first_pass_diagnostics by assumption.
    split; [reflexivity|]. split; [reflexivity|].
    intros name. apply first_pass_macros.
Qed.

Lemma definitions_of_header (names : list string) (r : cpp_state)
    (m : gmap string macro) :
  emitted r = header_events m ->
  definitions_of names r =
  List.filter (defines_one_of names)
    [EvDefine "PORTABLE_SYSTEM_H" (object_like [TNum 1])] ++
  List.filter (defines_one_of names)
    (when (is_defined "_WIN32" m)
       [EvDefine "snprintf" (object_like [TId "_snprintf"])]) ++
  List.filter (defines_one_of names)
    (when (negb (is_defined "STDIN_FILENO" m))
       (map (fun d => EvDefine d.1 d.2) stream_descriptors)) ++
  List.filter (defines_one_of names)
    (when (negb (is_defined "va_copy" m))
       [EvDefine "va_copy" (if is_defined "__va_copy" m then va_copy_alternate
                            else va_copy_memcpy)]).
Proof.
  intros He. unfold definitions_of. rewrite He. unfold header_events.
  rewrite !List.filter_app.
  rewrite filter_included_headers by reflexivity.
  destruct (is_defined "HAVE_SSIZE_T" m); reflexivity.
Qed.

Lemma typedefs_header (r : cpp_state) (m : gmap string macro) :
  emitted r = header_events m ->
  typedefs r = when (negb (is_defined "HAVE_SSIZE_T" m))
                 [EvTypedef "ptrdiff_t" "ssize_t"].
Proof.
  intros He. unfold typedefs. rewrite He. unfold header_events.
  rewrite !List.filter_app.
  rewrite filter_included_headers by reflexivity.
  destruct (is_defined "_WIN32" m), (is_defined "HAVE_SSIZE_T" m),
    (is_defined "STDIN_FILENO" m), (is_defined "va_copy" m); reflexivity.
Qed.

Lemma header_includes (m : gmap string macro) (h : string) :
  EvInclude h ∈ header_events m <-> EvInclude h ∈ included_headers m.
Proof.
  unfold header_events, stream_descriptors. cbn [map fst snd].
  assert (Hd : forall n d, EvInclude h = EvDefine n d <-> False)
    by (intros n d; split; [discriminate|tauto]).
  assert (Ht : forall t n, EvInclude h = EvTypedef t n <-> False)
    by (intros t n; split; [discriminate|tauto]).
  rewrite !elem_of_app, !elem_of_when, !elem_of_cons, !elem_of_nil, !Hd, !Ht.
  tauto.
Qed.

Lemma not_listed (x : string) (l : list string) :
  bool_decide (x ∈ l) = false -> x ∈ l -> False.
Proof. intros H Hin. apply bool_decide_eq_false in H. exact (H Hin). Qed.

Lemma conditional_header_included (m : gmap string macro) (flag h : string) :
  (flag, h) ∈ conditional_headers ->
  EvInclude h ∈ header_events m <-> flag_set flag m = true.
Proof.
  unfold conditional_headers. rewrite !elem_of_cons, elem_of_nil.
  intros Hin. rewrite header_includes, included_header_iff.
  repeat (destruct Hin as [Hin|Hin]); try contradiction;
    injection Hin as -> ->;
    (split;
     [ intros [H|H];
       [ exfalso; revert H; apply not_listed; reflexivity
       | repeat (destruct H as [H|H]); destruct H as [Heq Hset];
         try discriminate Heq; exact Hset ]
     | intros H; right;
       repeat first [ split; [reflexivity|exact H]
                    | left; split; [reflexivity|exact H]
                    | right ] ]).
Qed.

Ltac listed :=
  repeat first [ apply list_elem_of_here | apply list_elem_of_further ].

Ltac run_header m Hguard Hflags r Hev Hdg Hmac :=
  let Hrun := fresh "Hrun" in
  destruct (system_h_start m Hguard Hflags) as (r & Hrun & Hev & Hdg & Hmac);
  exists r; split; [exact Hrun|].

(** ** The outcome of each fallback *)

Section Outcomes.

Variables (r : cpp_state) (m : gmap string macro).
Hypothesis Hev : emitted r = header_events m.

Lemma snprintf_outcome :
  definitions_of ["snprintf"] r =
  when (is_defined "_WIN32" m)
    [EvDefine "snprintf" (object_like [TId "_snprintf"])].
Proof.
  rewrite (definitions_of_header _ _ _ Hev).
  destruct (is_defined "_WIN32" m), (is_defined "STDIN_FILENO" m),
    (is_defined "va_copy" m); reflexivity.
Qed.

Lemma descriptors_outcome :
  definitions_of descriptor_names r =
  when (negb (is_defined "STDIN_FILENO" m))
    [EvDefine "STDIN_FILENO" (object_like [TNum 0]);
     EvDefine "STDOUT_FILENO" (object_like [TNum 1]);
     EvDefine "STDERR_FILENO" (object_like [TNum 2])].
Proof.
  rewrite (definitions_of_header _ _ _ Hev).
  destruct (is_defined "_WIN32" m), (is_defined "STDIN_FILENO" m),
    (is_defined "va_copy" m); reflexivity.
Qed.

Lemma va_copy_outcome :
  definitions_of ["va_copy"] r =
  when (negb (is_defined "va_copy" m))
    [EvDefine "va_copy"
       (if is_defined "__va_copy" m then va_copy_alternate
        else va_copy_memcpy)].
Proof.
  rewrite (definitions_of_header _ _ _ Hev).
  destruct (is_defined "_WIN32" m), (is_defined "STDIN_FILENO" m),
    (is_defined "va_copy" m); reflexivity.
Qed.


End Outcomes.

Ltac read_macro Hmac :=
  rewrite Hmac; unfold header_defines;
  repeat (case_decide; try discriminate; try congruence).


(** The expansion of the two forms of va_copy on arguments [d] and [s]. *)
Lemma va_copy_alternate_expands (d s : list token) :
  expand_invocation va_copy_alternate [d; s] =
  Some ([TId "__va_copy"; TPunct "("; TPunct "("] ++ d ++
        [TPunct ")"; TPunct ","; TPunct "("] ++ s ++
        [TPunct ")"; TPunct ")"]).
Proof.
  reflexivity.
Qed.

Lemma va_copy_memcpy_expands (d s : list token) :
  expand_invocation va_copy_memcpy [d; s] =
  Some ([TId "memcpy"; TPunct "("; TPunct "&"; TPunct "("] ++ d ++
        [TPunct ")"; TPunct ","; TPunct "&"; TPunct "("] ++ s ++
        [TPunct ")"; TPunct ","; TId "sizeof"; TPunct "("; TId "va_list";
         TPunct ")"; TPunct ")"]).
Proof.
  reflexivity.
Qed.

(** ** Inclusion under the guard *)

Lemma system_h_again (s : cpp_state) :
  is_defined "PORTABLE_SYSTEM_H" (macros s) = true -> system_h s = Ok s.
Proof. intros H. unfold system_h, pp_ifndef. now rewrite H. Qed.

Lemma first_pass_guard (s : cpp_state) :
  is_defined "PORTABLE_SYSTEM_H" (macros (first_pass s)) = true.
Proof.
  apply is_defined_true. rewrite first_pass_macros. unfold header_defines.
  rewrite decide_True by reflexivity. eauto.
Qed.

Lemma system_h_runs (s : cpp_state) :
  flags_assigned (macros s) ->
  system_h s = Ok (if is_defined "PORTABLE_SYSTEM_H" (macros s) then s
                   else first_pass s).
Proof.
  intros Hflags.
  destruct (is_defined "PORTABLE_SYSTEM_H" (macros s)) eqn:Hguard.
  - now apply system_h_again.
  - now apply system_h_first_pass.
Qed.

(** ** The only failure is a feature flag without a value *)

Lemma pp_if_include_cases (name h : string) m ev dg :
  (exists e, if_value name m = Err e /\
             pp_if name (pp_include h) (CppState m ev dg) = Err e) \/
  (exists ev', pp_if name (pp_include h) (CppState m ev dg) =
               Ok (CppState m ev' dg)).
Proof.
  unfold pp_if, pp_include, emit. cbn [macros emitted diagnostics].
  destruct (if_value name m) as [n|e]; [right|left; eauto].
  destruct (n =? 0)%Z; eauto.
Qed.

Lemma snprintf_alias_run (s : cpp_state) : exists r, snprintf_alias s = Ok r.
Proof.
  unfold snprintf_alias, pp_ifdef, pp_define.
  destruct (is_defined "_WIN32" (macros s)); eauto.
Qed.

Lemma ssize_t_fallback_run (s : cpp_state) :
  exists r, ssize_t_fallback s = Ok r.
Proof.
  unfold ssize_t_fallback, pp_ifndef, c_typedef.
  destruct (is_defined "HAVE_SSIZE_T" (macros s)); eauto.
Qed.

Lemma fileno_fallback_run (s : cpp_state) : exists r, fileno_fallback s = Ok r.
Proof.
  unfold fileno_fallback, pp_ifndef, seq, pp_define.
  destruct (is_defined "STDIN_FILENO" (macros s)); eauto.
Qed.

Lemma va_copy_fallback_run (s : cpp_state) :
  exists r, va_copy_fallback s = Ok r.
Proof.
  unfold va_copy_fallback, pp_ifndef, pp_ifdef_else, pp_define.
  destruct (is_defined "va_copy" (macros s)),
    (is_defined "__va_copy" (macros s)); eauto.
Qed.

Lemma fallbacks_run (s : cpp_state) :
  exists r,
    (snprintf_alias ;; ssize_t_fallback ;; fileno_fallback ;;
     va_copy_fallback) s = Ok r.
Proof.
  destruct (snprintf_alias_run s) as [s1 H1].
  destruct (ssize_t_fallback_run s1) as [s2 H2].
  destruct (fileno_fallback_run s2) as [s3 H3].
  destruct (va_copy_fallback_run s3) as [s4 H4].
  exists s4.
  now rewrite (seq_run _ _ _ _ H1), (seq_run _ _ _ _ H2), (seq_run _ _ _ _ H3).
Qed.

Lemma seq_assoc (d1 d2 d3 : directive) (s : cpp_state) :
  ((d1 ;; d2) ;; d3) s = (d1 ;; d2 ;; d3) s.
Proof. unfold seq. now destruct (d1 s). Qed.

Ltac step_include :=
  match goal with
  | |- seq ?d _ _ = _ -> _ => unfold d
  | |- seq (seq _ _) _ _ = _ -> _ => rewrite seq_assoc
  | |- seq (pp_include _) _ _ = _ -> _ =>
      erewrite seq_run by (apply pp_include_run)
  | |- seq (pp_if ?f (pp_include ?h)) _ (CppState ?m ?ev ?dg) = _ -> _ =>
      let e := fresh "e" in
      let ev' := fresh "ev" in
      let Hvalue := fresh "Hvalue" in
      let Hstep := fresh "Hstep" in
      destruct (pp_if_include_cases f h m ev dg)
        as [(e & Hvalue & Hstep)|(ev' & Hstep)];
      [ unfold seq; rewrite Hstep; intros [= <-]; exists f;
        split; [unfold feature_flags; listed|];
        now rewrite if_value_insert_ne in Hvalue by discriminate
      | erewrite seq_run by (exact Hstep); clear Hstep ]
  end.

Lemma system_h_error (s : cpp_state) (e : pp_error) :
  system_h s = Err e ->
  is_defined "PORTABLE_SYSTEM_H" (macros s) = false /\
  exists flag, flag ∈ feature_flags /\ if_value flag (macros s) = Err e.
Proof.
  destruct s as [m ev dg]. cbn [macros].
  unfold system_h, pp_ifndef at 1. cbn [macros].
  destruct (is_defined "PORTABLE_SYSTEM_H" m) eqn:Hguard; [discriminate|].
  intros Hrun. split; [reflexivity|]. revert Hrun.
  erewrite seq_run by (apply pp_define_run).
  unfold define. cbn [macros emitted diagnostics].
  unfold standard_includes at 1.
  repeat step_include.
  match goal with
  | |- _ ?s = _ -> _ => destruct (fallbacks_run s) as [r Hr]
  end.
  unfold snprintf_alias in Hr. rewrite Hr. discriminate.
Qed.

(** ** The run in closed form, failures included *)

Lemma if_value_flag_set (name : string) (m : gmap string macro) (n : Z) :
  if_value name m = Ok n -> flag_set name m = negb (n =? 0)%Z.
Proof.
  unfold if_value, flag_set.
  destruct (m !! name) as [[[ps|] [|[x|k|p] [|t body]]]|];
    try discriminate; intros [= <-]; reflexivity.
Qed.

Lemma pp_if_include_ok (name h : string) (n : Z) m ev dg :
  if_value name m = Ok n ->
  pp_if name (pp_include h) (CppState m ev dg) =
  Ok (CppState m (ev ++ when (flag_set name m) [EvInclude h]) dg).
Proof.
  intros Hvalue. rewrite (if_value_flag_set _ _ _ Hvalue).
  unfold pp_if, pp_include, emit. cbn [macros emitted diagnostics].
  rewrite Hvalue.
  destruct (n =? 0)%Z; cbn [when negb]; [|reflexivity].
  now rewrite app_nil_r.
Qed.

Lemma pp_if_err (name : string) (body rest : directive) (e : pp_error)
    (s : cpp_state) :
  if_value name (macros s) = Err e -> (pp_if name body ;; rest) s = Err e.
Proof. intros H. unfold seq, pp_if. now rewrite H. Qed.

Ltac step_flag m :=
  match goal with
  | |- seq (pp_include _) _ _ = _ =>
      erewrite seq_run by (apply pp_include_run)
  | |- seq (pp_if ?f (pp_include ?h)) _ (CppState m ?ev ?dg) = _ =>
      let n := fresh "n" in
      let e := fresh "e" in
      let Hvalue := fresh "Hvalue" in
      destruct (if_value f m) as [n|e] eqn:Hvalue;
      [ erewrite seq_run by (apply (pp_if_include_ok f h n); exact Hvalue)
      | apply pp_if_err; exact Hvalue ]
  end.

Lemma standard_includes_closed_form m ev dg :
  standard_includes (CppState m ev dg) =
  match first_error feature_flags m with
  | Some e => Err e
  | None => Ok (CppState m (ev ++ included_headers m) dg)
  end.
Proof.
  unfold standard_includes, feature_flags. cbn [first_error].
  repeat step_flag m.
  rewrite pp_include_run. unfold included_headers.
  now rewrite <- !app_assoc.
Qed.

Lemma first_error_guard (d : macro) (flags : list string)
    (m : gmap string macro) :
  "PORTABLE_SYSTEM_H" ∉ flags ->
  first_error flags (<["PORTABLE_SYSTEM_H" := d]> m) = first_error flags m.
Proof.
  induction flags as [|f flags IH]; [reflexivity|].
  rewrite not_elem_of_cons. intros [Hne Hnot]. cbn [first_error].
  rewrite if_value_insert_ne by congruence. now rewrite IH.
Qed.

Lemma fallbacks_first_pass m ev dg :
  (snprintf_alias ;; ssize_t_fallback ;; fileno_fallback ;; va_copy_fallback)
    (CppState (<["PORTABLE_SYSTEM_H" := object_like [TNum 1]]> m)
              ((ev ++ [EvDefine "PORTABLE_SYSTEM_H" (object_like [TNum 1])])
               ++ included_headers m)
              (dg ++ redefinition "PORTABLE_SYSTEM_H" (object_like [TNum 1]) m))
  = Ok (first_pass (CppState m ev dg)).
Proof.
  unfold first_pass, define at 5. cbn [macros emitted diagnostics].
  unfold snprintf_alias, ssize_t_fallback, fileno_fallback, va_copy_fallback.
  unfold seq, pp_ifdef, pp_ifndef, pp_ifdef_else, c_typedef.
  cbn [macros].
  test_macro "_WIN32" m; rewrite ?pp_define_run; cbn [macros define emit];
  test_macro "HAVE_SSIZE_T" m; cbn [macros define emit];
  test_macro "STDIN_FILENO" m; rewrite ?pp_define_run; cbn [macros define emit];
  test_macro "va_copy" m; try reflexivity;
  test_macro "__va_copy" m; reflexivity.
Qed.

Lemma system_h_closed_form (s : cpp_state) :
  system_h s =
  if is_defined "PORTABLE_SYSTEM_H" (macros s) then Ok s
  else match first_error feature_flags (macros s) with
       | Some e => Err e
       | None => Ok (first_pass s)
       end.
Proof.
  destruct (is_defined "PORTABLE_SYSTEM_H" (macros s)) eqn:Hguard;
    [now apply system_h_again|].
  destruct s as [m ev dg]. cbn [macros] in *.
  unfold system_h, pp_ifndef at 1. cbn [macros]. rewrite Hguard.
  erewrite seq_run by (apply pp_define_run).
  unfold define. cbn [macros emitted diagnostics].
  unfold seq at 1. rewrite standard_includes_closed_form.
  rewrite first_error_guard
    by (intros Hin; revert Hin; apply not_listed; reflexivity).
  destruct (first_error feature_flags m) as [e|]; [reflexivity|].
  rewrite included_headers_guard. apply fallbacks_first_pass.
Qed.

(** ** The files a run reads *)

Lemma inclusions_header_events (m : gmap string macro) :
  omap header_of (header_events m) = omap header_of (included_headers m).
Proof.
  unfold header_events, stream_descriptors. rewrite !omap_app.
  destruct (is_defined "_WIN32" m), (is_defined "HAVE_SSIZE_T" m),
    (is_defined "STDIN_FILENO" m), (is_defined "va_copy" m);
    cbn [when negb map omap header_of fst snd app];
    now rewrite ?app_nil_r.
Qed.

Lemma included_headers_names (m : gmap string macro) :
  included_headers m = map EvInclude (omap header_of (included_headers m)).
Proof.
  unfold included_headers.
  destruct (flag_set "HAVE_INTTYPES_H" m), (flag_set "HAVE_STDINT_H" m),
    (flag_set "HAVE_STRINGS_H" m), (flag_set "HAVE_UNISTD_H" m),
    (flag_set "HAVE_SYS_BITYPES_H" m); reflexivity.
Qed.

Lemma elem_of_inclusions (r : cpp_state) (h : string) :
  h ∈ inclusions r <-> EvInclude h ∈ emitted r.
Proof.
  unfold inclusions. rewrite list_elem_of_omap. split.
  - intros ([h'|n d|t n] & Hin & [= <-]). exact Hin.
  - intros Hin. exists (EvInclude h). now split.
Qed.

Lemma included_header_names (m : gmap string macro) :
  omap header_of (included_headers m) =
  ["config.h"; "portable/macros.h"] ++
  when (flag_set "HAVE_INTTYPES_H" m) ["inttypes.h"] ++
  ["stdarg.h"; "stddef.h"] ++
  when (flag_set "HAVE_STDINT_H" m) ["stdint.h"] ++
  ["stdio.h"; "stdlib.h"; "string.h"] ++
  when (flag_set "HAVE_STRINGS_H" m) ["strings.h"] ++
  ["sys/types.h"] ++
  when (flag_set "HAVE_UNISTD_H" m) ["unistd.h"] ++
  when (flag_set "HAVE_SYS_BITYPES_H" m) ["sys/bitypes.h"] ++
  ["portable/stdbool.h"].
Proof.
  unfold included_headers.
  destruct (flag_set "HAVE_INTTYPES_H" m), (flag_set "HAVE_STDINT_H" m),
    (flag_set "HAVE_STRINGS_H" m), (flag_set "HAVE_UNISTD_H" m),
    (flag_set "HAVE_SYS_BITYPES_H" m); reflexivity.
Qed.

Lemma when_sublist {A : Type} (b : bool) (l : list A) : sublist (when b l) l.
Proof. destruct b; [reflexivity|apply sublist_nil_l]. Qed.

Lemma elem_of_headers (evs : list event) (h : string) :
  h ∈ omap header_of evs <-> EvInclude h ∈ evs.
Proof.
  rewrite list_elem_of_omap. split.
  - intros ([h'|n d|t n] & Hin & [= <-]). exact Hin.
  - intros Hin. exists (EvInclude h). now split.
Qed.

Lemma files_read_first_pass (s : cpp_state) :
  files_read s (first_pass s) = omap header_of (included_headers (macros s)).
Proof.
  unfold files_read. rewrite first_pass_emitted, drop_app_length.
  apply inclusions_header_events.
Qed.

Lemma files_read_none (s : cpp_state) : files_read s s = [].
Proof. unfold files_read. now rewrite drop_all. Qed.

Lemma first_error_empty (flags : list string) (m : gmap string macro)
    (f : string) :
  f ∈ flags -> m !! f = Some (object_like []) ->
  is_Some (first_error flags m).
Proof.
  intros Hin Hf. induction flags as [|g flags IH]; [now apply elem_of_nil in Hin|].
  cbn [first_error]. destruct (if_value g m) as [n|e] eqn:Hg; [|eauto].
  apply elem_of_cons in Hin as [->|Hin]; [|now apply IH].
  unfold if_value in Hg. rewrite Hf in Hg. discriminate Hg.
Qed.

Lemma forallb_present (present : string -> bool) (l : list string) :
  forallb present l = true <-> forall h, h ∈ l -> present h = true.
Proof.
  rewrite forallb_forall. split; intros H h Hin; apply H;
    now apply list_elem_of_In.
Qed.

Lemma system_h_on_first_pass (present : string -> bool) (s : cpp_state) :
  first_inclusion (macros s) -> flags_assigned (macros s) ->
  system_h_on present s =
  if forallb present (omap header_of (included_headers (macros s)))
  then Some (first_pass s) else None.
Proof.
  intros Hguard Hflags. unfold system_h_on.
  rewrite (system_h_first_pass s Hguard Hflags).
  now rewrite files_read_first_pass.
Qed.

(** * The claims *)




(** C2.  On a first inclusion, when va_copy is not already defined the
    header defines it: as an alias for __va_copy when __va_copy is defined
    (va_copy(d, s) expands to __va_copy((d), (s))), and otherwise as a raw
    memory copy (va_copy(d, s) expands to
    memcpy(&(d), &(s), sizeof(va_list)): sizeof(va_list) bytes from the
    source s to the destination d).  When va_copy is already defined the
    header does not define it and leaves the existing definition. *)
Theorem va_copy_defined_when_absent (m : gmap string macro) :
  first_inclusion m -> flags_assigned m ->
  exists r, system_h (start m) = Ok r /\
    (is_defined "va_copy" m = false -> is_defined "__va_copy" m = true ->
       definitions_of ["va_copy"] r = [EvDefine "va_copy" va_copy_alternate] /\
       macros r !! "va_copy" = Some va_copy_alternate /\
       forall d s, expand_invocation va_copy_alternate [d; s] =
         Some ([TId "__va_copy"; TPunct "("; TPunct "("] ++ d ++
               [TPunct ")"; TPunct ","; TPunct "("] ++ s ++
               [TPunct ")"; TPunct ")"])) /\
    (is_defined "va_copy" m = false -> is_defined "__va_copy" m = false ->
       definitions_of ["va_copy"] r = [EvDefine "va_copy" va_copy_memcpy] /\
       macros r !! "va_copy" = Some va_copy_memcpy /\
       forall d s, expand_invocation va_copy_memcpy [d; s] =
         Some ([TId "memcpy"; TPunct "("; TPunct "&"; TPunct "("] ++ d ++
               [TPunct ")"; TPunct ","; TPunct "&"; TPunct "("] ++ s ++
               [TPunct ")"; TPunct ","; TId "sizeof"; TPunct "(";
                TId "va_list"; TPunct ")"; TPunct ")"])) /\
    (is_defined "va_copy" m = true ->
       definitions_of ["va_copy"] r = [] /\
       macros r !! "va_copy" = m !! "va_copy").
Proof.
  intros Hguard Hflags. run_header m Hguard Hflags r Hev Hdg Hmac.
  rewrite (va_copy_outcome _ _ Hev).
  split; [|split].
  - intros Hva Halt. rewrite Hva, Halt. split; [reflexivity|]. split.
    + read_macro Hmac. now rewrite Hva, Halt.
    + apply va_copy_alternate_expands.
  - intros Hva Halt. rewrite Hva, Halt. split; [reflexivity|]. split.
    + read_macro Hmac. now rewrite Hva, Halt.
    + apply va_copy_memcpy_expands.
  - intros Hva. rewrite Hva. split; [reflexivity|].
    read_macro Hmac. now rewrite Hva.
Qed.

(** On Windows, with neither va_copy nor __va_copy, va_copy becomes the
    memory copy. *)
Lemma va_copy_defined_when_absent_witness :
  first_inclusion windows_config /\ flags_assigned windows_config /\
  exists r, system_h (start windows_config) = Ok r /\
    definitions_of ["va_copy"] r = [EvDefine "va_copy" va_copy_memcpy] /\
    macros r !! "va_copy" = Some va_copy_memcpy.
Proof.
  split; [reflexivity|]. split; [reflexivity|].
  destruct (va_copy_defined_when_absent windows_config eq_refl eq_refl)
    as (r & Hrun & _ & Hmem & _).
  exists r. split; [exact Hrun|].
  destruct (Hmem eq_refl eq_refl) as (Hdef & Hmac & _). now split.
Defined.

(** C3.  On a first inclusion, when the three standard stream descriptor
    constants are absent the header defines all three, STDIN_FILENO as 0,
    STDOUT_FILENO as 1 and STDERR_FILENO as 2; when they are present it
    defines none of them and their definitions stay as they were. *)
Theorem stream_descriptors_defined_when_absent (m : gmap string macro) :
  first_inclusion m -> flags_assigned m ->
  exists r, system_h (start m) = Ok r /\
    (is_defined "STDIN_FILENO" m = false ->
     is_defined "STDOUT_FILENO" m = false ->
     is_defined "STDERR_FILENO" m = false ->
       definitions_of descriptor_names r =
         [EvDefine "STDIN_FILENO" (object_like [TNum 0]);
          EvDefine "STDOUT_FILENO" (object_like [TNum 1]);
          EvDefine "STDERR_FILENO" (object_like [TNum 2])] /\
       macros r !! "STDIN_FILENO" = Some (object_like [TNum 0]) /\
       macros r !! "STDOUT_FILENO" = Some (object_like [TNum 1]) /\
       macros r !! "STDERR_FILENO" = Some (object_like [TNum 2])) /\
    (is_defined "STDIN_FILENO" m = true ->
     is_defined "STDOUT_FILENO" m = true ->
     is_defined "STDERR_FILENO" m = true ->
       definitions_of descriptor_names r = [] /\
       macros r !! "STDIN_FILENO" = m !! "STDIN_FILENO" /\
       macros r !! "STDOUT_FILENO" = m !! "STDOUT_FILENO" /\
       macros r !! "STDERR_FILENO" = m !! "STDERR_FILENO").
Proof.
  intros Hguard Hflags. run_header m Hguard Hflags r Hev Hdg Hmac.
  rewrite (descriptors_outcome _ _ Hev).
  split; intros Hin _ _; rewrite Hin; (split; [reflexivity|]);
    repeat split; read_macro Hmac; now rewrite Hin.
Qed.

(** On Windows the three stream descriptors are defined by the header. *)
Lemma stream_descriptors_defined_when_absent_witness :
  first_inclusion windows_config /\ flags_assigned windows_config /\
  exists r, system_h (start windows_config) = Ok r /\
    macros r !! "STDIN_FILENO" = Some (object_like [TNum 0]) /\
    macros r !! "STDOUT_FILENO" = Some (object_like [TNum 1]) /\
    macros r !! "STDERR_FILENO" = Some (object_like [TNum 2]).
Proof.
  split; [reflexivity|]. split; [reflexivity|].
  destruct (stream_descriptors_defined_when_absent windows_config
              eq_refl eq_refl) as (r & Hrun & Habsent & _).
  exists r. split; [exact Hrun|].
  destruct (Habsent eq_refl eq_refl eq_refl) as (_ & Hin & Hout & Herr).
  now repeat split.
Defined.

(** C4.  On a first inclusion, the header defines snprintf, as an alias for
    _snprintf, if and only if _WIN32 is defined; otherwise it makes no
    definition of snprintf and leaves the name as it was. *)
Theorem snprintf_aliased_iff_win32 (m : gmap string macro) :
  first_inclusion m -> flags_assigned m ->
  exists r, system_h (start m) = Ok r /\
    (definitions_of ["snprintf"] r =
       [EvDefine "snprintf" (object_like [TId "_snprintf"])] <->
     is_defined "_WIN32" m = true) /\
    (is_defined "_WIN32" m = true ->
       macros r !! "snprintf" = Some (object_like [TId "_snprintf"])) /\
    (is_defined "_WIN32" m = false ->
       definitions_of ["snprintf"] r = [] /\
       macros r !! "snprintf" = m !! "snprintf").
Proof.
  intros Hguard Hflags. run_header m Hguard Hflags r Hev Hdg Hmac.
  rewrite (snprintf_outcome _ _ Hev).
  split; [|split].
  - destruct (is_defined "_WIN32" m); cbn [when]; split;
      (reflexivity || discriminate).
  - intros Hwin. read_macro Hmac. now rewrite Hwin.
  - intros Hwin. rewrite Hwin. split; [reflexivity|].
    read_macro Hmac. now rewrite Hwin.
Qed.

(** On Windows snprintf is the alias. *)
Lemma snprintf_aliased_iff_win32_witness :
  first_inclusion windows_config /\ flags_assigned windows_config /\
  exists r, system_h (start windows_config) = Ok r /\
    definitions_of ["snprintf"] r =
      [EvDefine "snprintf" (object_like [TId "_snprintf"])].
Proof.
  split; [reflexivity|]. split; [reflexivity|].
  destruct (snprintf_aliased_iff_win32 windows_config eq_refl eq_refl)
    as (r & Hrun & Hiff & _).
  exists r. split; [exact Hrun|]. apply Hiff. reflexivity.
Defined.



(** C6.  On a first inclusion, each conditionally included standard header
    is included if and only if its feature flag is set: inttypes.h with
    HAVE_INTTYPES_H, stdint.h with HAVE_STDINT_H, strings.h with
    HAVE_STRINGS_H, unistd.h with HAVE_UNISTD_H and sys/bitypes.h with
    HAVE_SYS_BITYPES_H.  A flag is set when it is defined as an integer
    whose value in [#if], the low 64 bits of the constant, is not 0. *)
Theorem conditional_headers_follow_flags (m : gmap string macro) :
  first_inclusion m -> flags_assigned m ->
  exists r, system_h (start m) = Ok r /\
    (EvInclude "inttypes.h" ∈ emitted r <->
       flag_set "HAVE_INTTYPES_H" m = true) /\
    (EvInclude "stdint.h" ∈ emitted r <->
       flag_set "HAVE_STDINT_H" m = true) /\
    (EvInclude "strings.h" ∈ emitted r <->
       flag_set "HAVE_STRINGS_H" m = true) /\
    (EvInclude "unistd.h" ∈ emitted r <->
       flag_set "HAVE_UNISTD_H" m = true) /\
    (EvInclude "sys/bitypes.h" ∈ emitted r <->
       flag_set "HAVE_SYS_BITYPES_H" m = true).
Proof.
  intros Hguard Hflags. run_header m Hguard Hflags r Hev Hdg Hmac.
  rewrite Hev.
  split; [|split; [|split; [|split]]];
    apply conditional_header_included; listed.
Qed.

(** On the POSIX configuration the four headers whose flags are set are
    included, and sys/bitypes.h, whose flag is not, is left out. *)
Lemma conditional_headers_follow_flags_witness :
  first_inclusion posix_config /\ flags_assigned posix_config /\
  exists r, system_h (start posix_config) = Ok r /\
    EvInclude "inttypes.h" ∈ emitted r /\
    EvInclude "unistd.h" ∈ emitted r /\
    EvInclude "sys/bitypes.h" ∉ emitted r.
Proof.
  split; [reflexivity|]. split; [reflexivity|].
  destruct (conditional_headers_follow_flags posix_config eq_refl eq_refl)
    as (r & Hrun & Hint & _ & _ & Huni & Hbi).
  exists r. split; [exact Hrun|]. split; [|split].
  - apply Hint. reflexivity.
  - apply Huni. reflexivity.
  - intros Hin. apply Hbi in Hin. discriminate Hin.
Defined.



(** C8, as amended.  Processing the header returns a result for every
    assignment in which each of the five flags tested with [#if] is left
    undefined or defined as an integer and the files the header then
    includes exist, whatever other symbols are pre-defined and whether or
    not the header was included before.  It does fail on a first inclusion
    when one of the five flags is defined with nothing after its name, and
    when a file it includes is missing.  Once included, it fails in no
    configuration and on no platform. *)
Theorem system_h_fails_only_by_flag_or_file (present : string -> bool)
    (s : cpp_state) :
  (flags_assigned (macros s) ->
   (first_inclusion (macros s) ->
    forall h, h ∈ unconditional_headers -> present h = true) ->
   (first_inclusion (macros s) ->
    forall flag h, (flag, h) ∈ conditional_headers ->
                   flag_set flag (macros s) = true -> present h = true) ->
   exists r, system_h_on present s = Some r /\ system_h s = Ok r) /\
  (first_inclusion (macros s) ->
   forall f, f ∈ feature_flags -> macros s !! f = Some (object_like []) ->
             system_h_on present s = None /\ exists e, system_h s = Err e) /\
  (first_inclusion (macros s) -> flags_assigned (macros s) ->
   forall h, h ∈ unconditional_headers -> present h = false ->
             system_h_on present s = None) /\
  (first_inclusion (macros s) -> flags_assigned (macros s) ->
   forall flag h, (flag, h) ∈ conditional_headers ->
                  flag_set flag (macros s) = true -> present h = false ->
                  system_h_on present s = None) /\
  (is_defined "PORTABLE_SYSTEM_H" (macros s) = true ->
   system_h_on present s = Some s).
Proof.
  split; [|split; [|split; [|split]]].
  - intros Hflags Hunc Hcond.
    destruct (is_defined "PORTABLE_SYSTEM_H" (macros s)) eqn:Hguard.
    + exists s. unfold system_h_on.
      rewrite (system_h_again s Hguard), files_read_none. now split.
    + exists (first_pass s).
      rewrite (system_h_on_first_pass present s Hguard Hflags).
      rewrite (system_h_first_pass s Hguard Hflags).
      split; [|reflexivity].
      replace (forallb present
                 (omap header_of (included_headers (macros s)))) with true;
        [reflexivity|].
      symmetry. apply forallb_present. intros h Hin.
      apply elem_of_headers, included_header_iff in Hin.
      destruct Hin as [Hin|Hin]; [now apply (Hunc Hguard)|].
      repeat (destruct Hin as [Hin|Hin]); destruct Hin as [-> Hset];
        (eapply (Hcond Hguard); [|exact Hset];
         unfold conditional_headers; listed).
  - intros Hguard f Hin Hf. unfold first_inclusion in Hguard.
    unfold system_h_on. rewrite system_h_closed_form, Hguard.
    destruct (first_error_empty feature_flags (macros s) f Hin Hf) as [e ->].
    eauto.
  - intros Hguard Hflags h Hin Habsent.
    rewrite (system_h_on_first_pass present s Hguard Hflags).
    destruct (forallb present _) eqn:Hall; [|reflexivity].
    rewrite forallb_present in Hall. rewrite Hall in Habsent; [discriminate|].
    apply elem_of_headers, included_header_iff. now left.
  - intros Hguard Hflags flag h Hin Hset Habsent.
    rewrite (system_h_on_first_pass present s Hguard Hflags).
    destruct (forallb present _) eqn:Hall; [|reflexivity].
    rewrite forallb_present in Hall. rewrite Hall in Habsent; [discriminate|].
    apply elem_of_headers, header_includes.
    now apply (conditional_header_included _ flag h Hin).
  - intros Hguard. unfold system_h_on.
    now rewrite (system_h_again s Hguard), files_read_none.
Qed.

(** The header returns a result on the POSIX configuration where every file
    exists, and fails there where unistd.h does not. *)
Lemma system_h_fails_only_by_flag_or_file_witness :
  (exists r, system_h_on every_file (start posix_config) = Some r /\
             system_h (start posix_config) = Ok r) /\
  system_h_on no_unistd (start posix_config) = None.
Proof.
  split.
  - apply (system_h_fails_only_by_flag_or_file every_file (start posix_config)).
    + reflexivity.
    + reflexivity.
    + reflexivity.
  - apply (system_h_fails_only_by_flag_or_file no_unistd (start posix_config))
      with (flag := "HAVE_UNISTD_H") (h := "unistd.h").
    + reflexivity.
    + reflexivity.
    + unfold conditional_headers. listed.
    + reflexivity.
    + reflexivity.
Defined.

(** C8, as stated, fails: with HAVE_INTTYPES_H defined with nothing after
    its name, an assignment of a feature flag, [#if HAVE_INTTYPES_H] has no
    expression and the header returns no result. *)
Lemma system_h_never_fails_counterexample :
  first_inclusion empty_flag_config /\
  system_h (start empty_flag_config) =
    Err (IfWithoutExpression "HAVE_INTTYPES_H") /\
  ~ exists r, system_h (start empty_flag_config) = Ok r.
Proof.
  assert (Hrun : system_h (start empty_flag_config) =
                 Err (IfWithoutExpression "HAVE_INTTYPES_H"))
    by (vm_compute; reflexivity).
  split; [reflexivity|]. split; [exact Hrun|].
  intros [r Hr]. rewrite Hrun in Hr. discriminate Hr.
Qed.

(** C9.  Including the header a second time changes nothing: the state
    after the first inclusion (macro table, inclusions and definitions made)
    is also the state after the second, because the guard
    PORTABLE_SYSTEM_H, defined by the first inclusion, skips the body. *)
Theorem second_inclusion_is_skipped (s : cpp_state) :
  flags_assigned (macros s) ->
  exists s', system_h s = Ok s' /\
    is_defined "PORTABLE_SYSTEM_H" (macros s') = true /\
    system_h s' = Ok s' /\
    (system_h ;; system_h) s = system_h s.
Proof.
  intros Hflags. pose proof (system_h_runs s Hflags) as Hrun.
  assert (Hguard : is_defined "PORTABLE_SYSTEM_H"
                     (macros (if is_defined "PORTABLE_SYSTEM_H" (macros s)
                              then s else first_pass s)) = true).
  { destruct (is_defined "PORTABLE_SYSTEM_H" (macros s)) eqn:H;
      [exact H|apply first_pass_guard]. }
  eexists. split; [exact Hrun|]. split; [exact Hguard|].
  pose proof (system_h_again _ Hguard) as Hagain.
  split; [exact Hagain|]. unfold seq. rewrite Hrun. exact Hagain.
Qed.

(** Two inclusions on the POSIX configuration. *)
Lemma second_inclusion_is_skipped_witness :
  flags_assigned (macros (start posix_config)) /\
  exists s', system_h (start posix_config) = Ok s' /\ system_h s' = Ok s'.
Proof.
  split; [reflexivity|].
  destruct (second_inclusion_is_skipped (start posix_config) eq_refl)
    as (s' & Hrun & _ & Hagain & _).
  exists s'. split; [exact Hrun|exact Hagain].
Defined.

(** C10.  On a first inclusion, whether the header defines the stream
    descriptor constants depends on STDIN_FILENO alone.  When STDIN_FILENO
    is already defined, the header defines none of the three, whatever the
    other two are: if STDOUT_FILENO (or STDERR_FILENO) was not defined, it
    is still not defined after inclusion.  When STDIN_FILENO is not defined
    the header defines all three, whatever the other two are. *)
Theorem stream_descriptors_depend_on_stdin (m : gmap string macro) :
  first_inclusion m -> flags_assigned m ->
  exists r, system_h (start m) = Ok r /\
    (is_defined "STDIN_FILENO" m = true ->
       definitions_of descriptor_names r = [] /\
       (is_defined "STDOUT_FILENO" m = false ->
          is_defined "STDOUT_FILENO" (macros r) = false) /\
       (is_defined "STDERR_FILENO" m = false ->
          is_defined "STDERR_FILENO" (macros r) = false)) /\
    (is_defined "STDIN_FILENO" m = false ->
       definitions_of descriptor_names r =
         [EvDefine "STDIN_FILENO" (object_like [TNum 0]);
          EvDefine "STDOUT_FILENO" (object_like [TNum 1]);
          EvDefine "STDERR_FILENO" (object_like [TNum 2])]).
Proof.
  intros Hguard Hflags. run_header m Hguard Hflags r Hev Hdg Hmac.
  rewrite (descriptors_outcome _ _ Hev).
  split; intros Hin; rewrite Hin; [|reflexivity].
  split; [reflexivity|].
  split; intros Hout%is_defined_false; apply is_defined_false;
    read_macro Hmac; now rewrite Hin.
Qed.

(** A configuration that defines STDIN_FILENO only is left without
    STDOUT_FILENO and STDERR_FILENO. *)
Lemma stream_descriptors_depend_on_stdin_witness :
  first_inclusion stdin_only_config /\ flags_assigned stdin_only_config /\
  exists r, system_h (start stdin_only_config) = Ok r /\
    definitions_of descriptor_names r = [] /\
    is_defined "STDOUT_FILENO" (macros r) = false /\
    is_defined "STDERR_FILENO" (macros r) = false.
Proof.
  split; [reflexivity|]. split; [reflexivity|].
  destruct (stream_descriptors_depend_on_stdin stdin_only_config
              eq_refl eq_refl) as (r & Hrun & Hdefined & _).
  exists r. split; [exact Hrun|].
  destruct (Hdefined eq_refl) as (Hnone & Hout & Herr).
  split; [exact Hnone|]. split; [apply Hout|apply Herr]; reflexivity.
Defined.

(** * Sample runs *)

(** POSIX: every header but sys/bitypes.h, and no fallback. *)
Example posix_run :
  exists r, system_h (start posix_config) = Ok r /\
    emitted r =
      [EvDefine "PORTABLE_SYSTEM_H" (object_like [TNum 1]);
       EvInclude "config.h"; EvInclude "portable/macros.h";
       EvInclude "inttypes.h"; EvInclude "stdarg.h"; EvInclude "stddef.h";
       EvInclude "stdint.h"; EvInclude "stdio.h"; EvInclude "stdlib.h";
       EvInclude "string.h"; EvInclude "strings.h"; EvInclude "sys/types.h";
       EvInclude "unistd.h"; EvInclude "portable/stdbool.h"] /\
    diagnostics r = [].
Proof.
  eexists. split; [vm_compute; reflexivity|].
  split; vm_compute; reflexivity.
Qed.

(** Windows: the unconditional headers only, and every fallback. *)
Example windows_run :
  exists r, system_h (start windows_config) = Ok r /\
    emitted r =
      [EvDefine "PORTABLE_SYSTEM_H" (object_like [TNum 1]);
       EvInclude "config.h"; EvInclude "portable/macros.h";
       EvInclude "stdarg.h"; EvInclude "stddef.h"; EvInclude "stdio.h";
       EvInclude "stdlib.h"; EvInclude "string.h"; EvInclude "sys/types.h";
       EvInclude "portable/stdbool.h";
       EvDefine "snprintf" (object_like [TId "_snprintf"]);
       EvTypedef "ptrdiff_t" "ssize_t";
       EvDefine "STDIN_FILENO" (object_like [TNum 0]);
       EvDefine "STDOUT_FILENO" (object_like [TNum 1]);
       EvDefine "STDERR_FILENO" (object_like [TNum 2]);
       EvDefine "va_copy" va_copy_memcpy] /\
    diagnostics r = [].
Proof.
  eexists. split; [vm_compute; reflexivity|].
  split; vm_compute; reflexivity.
Qed.

(** An old GCC: no va_copy, but __va_copy. *)
Example old_gcc_run :
  exists r,
    system_h (start (<["__va_copy" :=
                         function_like ["d"; "s"]
                           [TId "__builtin_va_copy"; TPunct "("; TId "d";
                            TPunct ","; TId "s"; TPunct ")"]]>
                       (delete "va_copy" posix_config))) = Ok r /\
    definitions_of ["va_copy"] r = [EvDefine "va_copy" va_copy_alternate].
Proof. eexists. split; vm_compute; reflexivity. Qed.

(** * Configurations outside the claims' hypotheses *)

(** A redefinition conflict: STDOUT_FILENO defined, with another value, in
    a configuration that does not define STDIN_FILENO. *)
Example stdout_fileno_redefined :
  exists r,
    system_h (start {["STDOUT_FILENO" := object_like [TNum 7]]}) = Ok r /\
    diagnostics r = [Redefined "STDOUT_FILENO"].
Proof. eexists. split; vm_compute; reflexivity. Qed.

(** A flag defined as 0 is defined and is not set: [#if] leaves the header
    out where [#ifdef] would have included it. *)
Example zero_flag_is_not_set :
  let m : gmap string macro := {["HAVE_UNISTD_H" := object_like [TNum 0]]} in
  is_defined "HAVE_UNISTD_H" m = true /\ flag_set "HAVE_UNISTD_H" m = false.
Proof. split; reflexivity. Qed.

(** A flag defined as 2^64 is not set either: the constant does not fit
    the 64 bits of [#if] and is cut to 0.  One more is cut to 1, and set. *)
Example oversized_flag_is_not_set :
  let m : gmap string macro :=
    {["HAVE_UNISTD_H" := object_like [TNum (2 ^ 64)]]} in
  let m' : gmap string macro :=
    {["HAVE_UNISTD_H" := object_like [TNum (2 ^ 64 + 1)]]} in
  flag_set "HAVE_UNISTD_H" m = false /\ flag_set "HAVE_UNISTD_H" m' = true /\
  exists r, system_h (start m) = Ok r /\ ("unistd.h" ∉ inclusions r).
Proof.
  split; [reflexivity|]. split; [reflexivity|].
  eexists. split; [vm_compute; reflexivity|].
  apply (bool_decide_unpack _). vm_compute. exact I.
Qed.

(** * Further properties of the header *)

(** ** The order of the inclusions *)

(** X3.  On a first inclusion the guard is defined before anything else,
    then come the inclusions and only then the fallback definitions.  The
    files are included in the order of the header's lines, none of them
    twice, the nine unconditional ones always, and one more for each flag
    that is set. *)
Theorem inclusions_in_order (m : gmap string macro) :
  first_inclusion m -> flags_assigned m ->
  exists r, system_h (start m) = Ok r /\
    sublist (inclusions r) all_headers /\
    NoDup (inclusions r) /\
    sublist unconditional_headers (inclusions r) /\
    length (inclusions r) =
      9 + length (List.filter (fun f => flag_set f m) feature_flags) /\
    exists rest,
      emitted r = EvDefine "PORTABLE_SYSTEM_H" (object_like [TNum 1])
                  :: map EvInclude (inclusions r) ++ rest /\
      omap header_of rest = [].
Proof.
  intros Hguard Hflags. run_header m Hguard Hflags r Hev Hdg Hmac.
  unfold inclusions. rewrite Hev, inclusions_header_events.
  assert (Hall : sublist (omap header_of (included_headers m)) all_headers).
  { rewrite included_header_names.
    change all_headers with
      (["config.h"; "portable/macros.h"] ++ ["inttypes.h"] ++
       ["stdarg.h"; "stddef.h"] ++ ["stdint.h"] ++
       ["stdio.h"; "stdlib.h"; "string.h"] ++ ["strings.h"] ++
       ["sys/types.h"] ++ ["unistd.h"] ++ ["sys/bitypes.h"] ++
       ["portable/stdbool.h"]).
    repeat (apply sublist_app; [first [reflexivity|apply when_sublist]|]).
    reflexivity. }
  split; [exact Hall|]. split; [|split; [|split]].
  - apply (sublist_NoDup _ all_headers); [|exact Hall].
    apply (bool_decide_unpack (NoDup all_headers)). vm_compute. exact I.
  - rewrite included_header_names.
    change unconditional_headers with
      (["config.h"; "portable/macros.h"] ++ [] ++
       ["stdarg.h"; "stddef.h"] ++ [] ++
       ["stdio.h"; "stdlib.h"; "string.h"] ++ [] ++
       ["sys/types.h"] ++ [] ++ [] ++
       ["portable/stdbool.h"]).
    repeat (apply sublist_app; [first [reflexivity|apply sublist_nil_l]|]).
    reflexivity.
  - unfold included_headers, feature_flags. cbn [List.filter].
    destruct (flag_set "HAVE_INTTYPES_H" m), (flag_set "HAVE_STDINT_H" m),
      (flag_set "HAVE_STRINGS_H" m), (flag_set "HAVE_UNISTD_H" m),
      (flag_set "HAVE_SYS_BITYPES_H" m); reflexivity.
  - rewrite <- included_headers_names. unfold header_events.
    match goal with
    | |- context [included_headers m ++ ?rest] => exists rest
    end.
    split; [reflexivity|]. unfold stream_descriptors. rewrite !omap_app.
    destruct (is_defined "_WIN32" m), (is_defined "HAVE_SSIZE_T" m),
      (is_defined "STDIN_FILENO" m), (is_defined "va_copy" m); reflexivity.
Qed.

(** On MinGW three flags are set: twelve files, config.h first. *)
Lemma inclusions_in_order_witness :
  first_inclusion mingw_config /\ flags_assigned mingw_config /\
  exists r, system_h (start mingw_config) = Ok r /\
    sublist (inclusions r) all_headers /\ length (inclusions r) = 12.
Proof.
  split; [reflexivity|]. split; [reflexivity|].
  destruct (inclusions_in_order mingw_config eq_refl eq_refl)
    as (r & Hrun & Hall & _ & _ & Hlen & _).
  exists r. split; [exact Hrun|]. split; [exact Hall|]. exact Hlen.
Defined.

(** X9.  The leading comment of the file says that including it stands for
    including sys/types.h, stdarg.h, stdbool.h, stddef.h, stdio.h,
    stdlib.h, stdint.h, string.h, strings.h and unistd.h.  On a first
    inclusion with HAVE_STDINT_H, HAVE_STRINGS_H and HAVE_UNISTD_H set, the
    header includes every one of them but stdbool.h.  It never includes
    stdbool.h itself: it includes portable/stdbool.h in its place, and what
    that file does is not the header's. *)
Theorem documented_headers_included (m : gmap string macro) :
  first_inclusion m -> flags_assigned m ->
  flag_set "HAVE_STDINT_H" m = true ->
  flag_set "HAVE_STRINGS_H" m = true ->
  flag_set "HAVE_UNISTD_H" m = true ->
  exists r, system_h (start m) = Ok r /\
    (forall h, h ∈ documented_headers -> h <> "stdbool.h" ->
               h ∈ inclusions r) /\
    ("stdbool.h" ∉ inclusions r) /\
    "portable/stdbool.h" ∈ inclusions r.
Proof.
  intros Hguard Hflags Hint Hstr Huni.
  run_header m Hguard Hflags r Hev Hdg Hmac.
  split; [|split].
  - apply (proj1 (Forall_forall
                    (fun h => h <> "stdbool.h" -> h ∈ inclusions r)
                    documented_headers)).
    unfold documented_headers. rewrite !Forall_cons, Forall_nil.
    repeat split; intros Hne; try (now contradiction Hne);
      apply elem_of_inclusions; rewrite Hev;
      apply header_includes, included_header_iff;
      first [ solve [left; listed]
            | right; rewrite Hint, Hstr, Huni;
              solve [ repeat first [ split; reflexivity
                                   | left; split; reflexivity
                                   | right ] ] ].
  - rewrite elem_of_inclusions, Hev, header_includes, included_header_iff.
    intros [H|H].
    + revert H. apply not_listed. reflexivity.
    + repeat (destruct H as [H|H]); destruct H as [[=] _].
  - apply elem_of_inclusions. rewrite Hev.
    apply header_includes, included_header_iff. left. listed.
Qed.

(** The POSIX configuration sets the three flags. *)
Lemma documented_headers_included_witness :
  first_inclusion posix_config /\ flags_assigned posix_config /\
  exists r, system_h (start posix_config) = Ok r /\
    "unistd.h" ∈ inclusions r /\ ("stdbool.h" ∉ inclusions r).
Proof.
  split; [reflexivity|]. split; [reflexivity|].
  destruct (documented_headers_included posix_config
              eq_refl eq_refl eq_refl eq_refl eq_refl)
    as (r & Hrun & Hall & Hbool & _).
  exists r. split; [exact Hrun|].
  split; [|exact Hbool].
  apply Hall; [unfold documented_headers; listed|discriminate].
Defined.

(** ** What the header leaves alone *)

Lemma header_defines_other (m : gmap string macro) (name : string) :
  name ∉ defined_names -> header_defines m name = None.
Proof.
  unfold defined_names. rewrite !not_elem_of_cons.
  intros (H1 & H2 & H3 & H4 & H5 & H6 & _). unfold header_defines.
  repeat (case_decide; [contradiction|]). reflexivity.
Qed.

Ltac unlisted :=
  let Hin := fresh "Hin" in
  intros Hin; revert Hin; apply not_listed; reflexivity.

(** X4.  On a first inclusion the header never undefines a macro, and it
    touches six names only: every other name is left exactly as it was.
    Of the macros the configuration came with, only snprintf,
    STDOUT_FILENO and STDERR_FILENO can get another definition. *)
Theorem other_macros_untouched (m : gmap string macro) :
  first_inclusion m -> flags_assigned m ->
  exists r, system_h (start m) = Ok r /\
    (forall name, name ∉ defined_names -> macros r !! name = m !! name) /\
    (forall name, is_defined name m = true ->
                  is_defined name (macros r) = true) /\
    (forall name d, m !! name = Some d ->
       name ∉ ["snprintf"; "STDOUT_FILENO"; "STDERR_FILENO"] ->
       macros r !! name = Some d).
Proof.
  intros Hguard Hflags. run_header m Hguard Hflags r Hev Hdg Hmac.
  split; [|split].
  - intros name Hname. now rewrite Hmac, header_defines_other.
  - intros name Hdefined. apply is_defined_true. rewrite Hmac.
    destruct (header_defines m name); [eauto|]. now apply is_defined_true.
  - intros name d Hd. rewrite !not_elem_of_cons. intros (H1 & H2 & H3 & _).
    assert (Hdefined : is_defined name m = true)
      by (apply is_defined_true; eauto).
    rewrite Hmac. unfold header_defines.
    apply is_defined_false in Hguard.
    repeat case_decide; subst; try discriminate; try contradiction;
      try congruence; rewrite ?Hdefined; exact Hd.
Qed.

(** On POSIX the builtin va_copy and the feature flags are as before. *)
Lemma other_macros_untouched_witness :
  first_inclusion posix_config /\ flags_assigned posix_config /\
  exists r, system_h (start posix_config) = Ok r /\
    macros r !! "va_copy" = posix_config !! "va_copy" /\
    macros r !! "HAVE_UNISTD_H" = Some flag_on.
Proof.
  split; [reflexivity|]. split; [reflexivity|].
  destruct (other_macros_untouched posix_config eq_refl eq_refl)
    as (r & Hrun & Hother & _ & Hkept).
  exists r. split; [exact Hrun|]. split.
  - apply Hkept; [reflexivity|unlisted].
  - rewrite Hother; [reflexivity|unlisted].
Defined.

(** ** Redefinition conflicts *)

Lemma elem_of_redefinition (x : diagnostic) (name : string) (d : macro)
    (m : gmap string macro) :
  x ∈ redefinition name d m <->
  x = Redefined name /\ exists d', m !! name = Some d' /\ d' <> d.
Proof.
  unfold redefinition. destruct (m !! name) as [d'|].
  - case_decide as Hd.
    + rewrite elem_of_nil. split; [tauto|]. intros (_ & d'' & [= <-] & Hne).
      contradiction.
    + rewrite list_elem_of_singleton. split.
      * intros ->. eauto.
      * now intros [-> _].
  - rewrite elem_of_nil. split; [tauto|]. now intros (_ & d' & [=] & _).
Qed.

(** X5.  On a first inclusion the header can raise three redefinition
    conflicts and no other.  It raises the one on snprintf exactly when
    _WIN32 is defined and snprintf is already a macro other than the alias.
    It raises the one on STDOUT_FILENO (STDERR_FILENO) whenever
    STDIN_FILENO is not defined and the name is already a macro that is not
    the integer 1 (2), and only when STDIN_FILENO is not defined and the
    name is already a macro.  STDIN_FILENO, va_copy and the guard never
    conflict.  (Nothing is said of a descriptor already defined as the same
    integer: whether that conflicts depends on how the integer is
    spelled.) *)
Theorem conflicts_characterised (m : gmap string macro) :
  first_inclusion m -> flags_assigned m ->
  exists r, system_h (start m) = Ok r /\
    (Redefined "snprintf" ∈ diagnostics r <->
       is_defined "_WIN32" m = true /\
       exists d, m !! "snprintf" = Some d /\
                 d <> object_like [TId "_snprintf"]) /\
    (forall d, is_defined "STDIN_FILENO" m = false ->
       m !! "STDOUT_FILENO" = Some d -> d <> object_like [TNum 1] ->
       Redefined "STDOUT_FILENO" ∈ diagnostics r) /\
    (Redefined "STDOUT_FILENO" ∈ diagnostics r ->
       is_defined "STDIN_FILENO" m = false /\
       is_defined "STDOUT_FILENO" m = true) /\
    (forall d, is_defined "STDIN_FILENO" m = false ->
       m !! "STDERR_FILENO" = Some d -> d <> object_like [TNum 2] ->
       Redefined "STDERR_FILENO" ∈ diagnostics r) /\
    (Redefined "STDERR_FILENO" ∈ diagnostics r ->
       is_defined "STDIN_FILENO" m = false /\
       is_defined "STDERR_FILENO" m = true) /\
    (forall name, Redefined name ∈ diagnostics r ->
       name ∈ ["snprintf"; "STDOUT_FILENO"; "STDERR_FILENO"]).
Proof.
  intros Hguard Hflags. run_header m Hguard Hflags r Hev Hdg Hmac.
  rewrite Hdg. unfold header_diagnostics.
  assert (Hsame : forall name, Redefined name = Redefined name <-> True)
    by (intros name; tauto).
  assert (Hout : Redefined "STDOUT_FILENO" = Redefined "snprintf" <-> False)
    by (split; [discriminate|tauto]).
  assert (Herr : Redefined "STDERR_FILENO" = Redefined "snprintf" <-> False)
    by (split; [discriminate|tauto]).
  assert (Hsn1 : Redefined "snprintf" = Redefined "STDOUT_FILENO" <-> False)
    by (split; [discriminate|tauto]).
  assert (Hsn2 : Redefined "snprintf" = Redefined "STDERR_FILENO" <-> False)
    by (split; [discriminate|tauto]).
  assert (Hoe : Redefined "STDOUT_FILENO" = Redefined "STDERR_FILENO" <-> False)
    by (split; [discriminate|tauto]).
  assert (Heo : Redefined "STDERR_FILENO" = Redefined "STDOUT_FILENO" <-> False)
    by (split; [discriminate|tauto]).
  match goal with
  | |- context [Redefined "STDOUT_FILENO" ∈ ?dg] =>
      assert (Hstdout : Redefined "STDOUT_FILENO" ∈ dg <->
                is_defined "STDIN_FILENO" m = false /\
                exists d, m !! "STDOUT_FILENO" = Some d /\
                          d <> object_like [TNum 1]);
      [|assert (Hstderr : Redefined "STDERR_FILENO" ∈ dg <->
                  is_defined "STDIN_FILENO" m = false /\
                  exists d, m !! "STDERR_FILENO" = Some d /\
                            d <> object_like [TNum 2])]
  end.
  { rewrite !elem_of_app, !elem_of_when, elem_of_app, !elem_of_redefinition.
    rewrite Hsame, Hout, Hoe, negb_true_iff. tauto. }
  { rewrite !elem_of_app, !elem_of_when, elem_of_app, !elem_of_redefinition.
    rewrite Hsame, Herr, Heo, negb_true_iff. tauto. }
  split; [|split; [|split; [|split; [|split]]]].
  - rewrite !elem_of_app, !elem_of_when, elem_of_app, !elem_of_redefinition.
    rewrite Hsame, Hsn1, Hsn2, negb_true_iff. tauto.
  - intros d Hin Hd Hne. apply Hstdout. eauto.
  - intros (Hin & d & Hd & _)%Hstdout. split; [exact Hin|].
    apply is_defined_true. eauto.
  - intros d Hin Hd Hne. apply Hstderr. eauto.
  - intros (Hin & d & Hd & _)%Hstderr. split; [exact Hin|].
    apply is_defined_true. eauto.
  - intros name.
    rewrite !elem_of_app, !elem_of_when, elem_of_app, !elem_of_redefinition.
    intros [(_ & [= ->] & _)|(_ & [([= ->] & _)|([= ->] & _)])]; listed.
Qed.

(** Windows with snprintf replaced: the conflict on snprintf and no other. *)
Lemma conflicts_characterised_witness :
  first_inclusion replaced_snprintf_config /\
  flags_assigned replaced_snprintf_config /\
  exists r, system_h (start replaced_snprintf_config) = Ok r /\
    Redefined "snprintf" ∈ diagnostics r /\
    Redefined "STDOUT_FILENO" ∉ diagnostics r.
Proof.
  split; [reflexivity|]. split; [reflexivity|].
  destruct (conflicts_characterised replaced_snprintf_config eq_refl eq_refl)
    as (r & Hrun & Hsn & _ & Hout & _).
  exists r. split; [exact Hrun|]. split.
  - apply Hsn. split; [reflexivity|].
    exists (object_like [TId "rpl_snprintf"]). split; [reflexivity|discriminate].
  - intros Hin. apply Hout in Hin. destruct Hin as [_ Hin].
    discriminate Hin.
Defined.

(** ** What is always there afterwards *)

(** X6.  After a first inclusion STDIN_FILENO and va_copy are macros in
    every configuration, whatever was pre-defined, and the guard
    PORTABLE_SYSTEM_H is defined as 1. *)
Theorem always_defined_afterwards (m : gmap string macro) :
  first_inclusion m -> flags_assigned m ->
  exists r, system_h (start m) = Ok r /\
    is_defined "STDIN_FILENO" (macros r) = true /\
    is_defined "va_copy" (macros r) = true /\
    macros r !! "PORTABLE_SYSTEM_H" = Some (object_like [TNum 1]).
Proof.
  intros Hguard Hflags. run_header m Hguard Hflags r Hev Hdg Hmac.
  split; [|split].
  - apply is_defined_true. read_macro Hmac.
    destruct (is_defined "STDIN_FILENO" m) eqn:Hin; [|eauto].
    now apply is_defined_true.
  - apply is_defined_true. read_macro Hmac.
    destruct (is_defined "va_copy" m) eqn:Hva; [|eauto].
    now apply is_defined_true.
  - now read_macro Hmac.
Qed.

(** The configuration with STDIN_FILENO alone: va_copy is added. *)
Lemma always_defined_afterwards_witness :
  first_inclusion stdin_only_config /\ flags_assigned stdin_only_config /\
  exists r, system_h (start stdin_only_config) = Ok r /\
    is_defined "STDIN_FILENO" (macros r) = true /\
    is_defined "va_copy" (macros r) = true.
Proof.
  split; [reflexivity|]. split; [reflexivity|].
  destruct (always_defined_afterwards stdin_only_config eq_refl eq_refl)
    as (r & Hrun & Hin & Hva & _).
  exists r. split; [exact Hrun|]. split; [exact Hin|exact Hva].
Defined.

(** ** Repeated inclusion *)

Lemma system_h_result_guarded (s r : cpp_state) :
  system_h s = Ok r -> is_defined "PORTABLE_SYSTEM_H" (macros r) = true.
Proof.
  rewrite system_h_closed_form.
  destruct (is_defined "PORTABLE_SYSTEM_H" (macros s)) eqn:Hguard.
  - now intros [= <-].
  - destruct (first_error feature_flags (macros s)); [discriminate|].
    intros [= <-]. apply first_pass_guard.
Qed.

(** X7.  Including the header any number of times in a row, at least
    once, is the same as including it once: the same result, or the same
    error, from every state. *)
Theorem repeated_inclusion (n : nat) (s : cpp_state) :
  include_times (S n) s = system_h s.
Proof.
  revert s. induction n as [|n IH]; intros s.
  - cbn [include_times]. unfold seq. now destruct (system_h s).
  - change (include_times (S (S n)) s)
      with ((system_h ;; include_times (S n)) s).
    unfold seq at 1. destruct (system_h s) as [r|e] eqn:Hrun; [|reflexivity].
    rewrite IH. apply system_h_again.
    now apply (system_h_result_guarded s r).
Qed.

(** ** A flag defined as 0 *)

(** X10.  The header reads its flags in two ways.  A header flag defined as
    0 is tested by value ([#if]) and counts as not set: unistd.h is left
    out.  HAVE_SSIZE_T is tested by [#ifndef]: defined as 0 it still counts
    as present, and ssize_t is not defined. *)
Theorem flag_defined_as_zero (m : gmap string macro) :
  first_inclusion m -> flags_assigned m ->
  m !! "HAVE_UNISTD_H" = Some (object_like [TNum 0]) ->
  m !! "HAVE_SSIZE_T" = Some (object_like [TNum 0]) ->
  exists r, system_h (start m) = Ok r /\
    ("unistd.h" ∉ inclusions r) /\ typedefs r = [].
Proof.
  intros Hguard Hflags Huni Hssize.
  run_header m Hguard Hflags r Hev Hdg Hmac. split.
  - rewrite elem_of_inclusions, Hev.
    rewrite (conditional_header_included m "HAVE_UNISTD_H") by listed.
    unfold flag_set. rewrite Huni. discriminate.
  - rewrite (typedefs_header _ _ Hev).
    assert (Hdefined : is_defined "HAVE_SSIZE_T" m = true)
      by (apply is_defined_true; eauto).
    now rewrite Hdefined.
Qed.

(** Both flags defined as 0 and nothing else. *)
Lemma flag_defined_as_zero_witness :
  exists r,
    system_h (start (<["HAVE_UNISTD_H" := object_like [TNum 0]]>
                       {["HAVE_SSIZE_T" := object_like [TNum 0]]})) = Ok r /\
    ("unistd.h" ∉ inclusions r) /\ typedefs r = [].
Proof.
  apply (flag_defined_as_zero
           (<["HAVE_UNISTD_H" := object_like [TNum 0]]>
              {["HAVE_SSIZE_T" := object_like [TNum 0]]}));
    reflexivity.
Defined.
